(** * Basis reductions of propositional formulas (propositions/operators.py)

    A shallow embedding of the five conversions [to_not_and_or],
    [to_not_and], [to_nand], [to_implies_not] and [to_implies_false], and the
    properties the specification states about them.

    The conversions dispatch on the root string of a node, exactly as the
    Python code does; fallible steps ([assert], [raise], a missing attribute)
    live in a small error monad. *)

From stdpp Require Import base option list strings gmap.
From Stdlib Require Import Ascii String Bool.

Open Scope string_scope.

(** ** Exceptions and the error monad *)

Inductive exn : Type :=
| ValueError (msg : string)
| AssertionError
| AttributeError (attr : string).

Inductive result (A : Type) : Type :=
| Ok (a : A)
| Raise (e : exn).

Arguments Ok {A} a.
Arguments Raise {A} e.

#[export] Instance result_ret : MRet result := fun A a => Ok a.

#[export] Instance result_bind : MBind result := fun A B k r =>
  match r with
  | Ok a => k a
  | Raise e => Raise e
  end.

Definition raises {A : Type} (r : result A) : Prop :=
  match r with
  | Ok _ => False
  | Raise _ => True
  end.

(** ** The formula tree *)

(** Modelled from the spec: class [Formula] of propositions/syntax.py, which
    is imported by operators.py and is not among the sources.  A node holds
    its root string and zero, one or two children; the constructor names
    tell which of the attributes [first] and [second] the object has. *)
Inductive Formula : Type :=
| Formula0 (root : string)
| Formula1 (root : string) (first : Formula)
| Formula2 (root : string) (first second : Formula).

Definition root (formula : Formula) : string :=
  match formula with
  | Formula0 r | Formula1 r _ | Formula2 r _ _ => r
  end.

(** ** The root classifier *)

Definition isdigit (c : ascii) : bool :=
  (("0" <=? c) && (c <=? "9"))%char.

Fixpoint isdecimal_rest (s : string) : bool :=
  match s with
  | EmptyString => true
  | String c s' => isdigit c && isdecimal_rest s'
  end.

(** Modelled from the spec: [is_variable] of propositions/syntax.py.  The
    spec only says that a variable holds a name; the names taken here are
    those of the book the sources accompany, a letter from [p] to [z]
    followed by decimal digits.  The empty string is no name. *)
Definition is_variable (s : string) : bool :=
  match s with
  | EmptyString => false
  | String c rest => (("p" <=? c) && (c <=? "z"))%char && isdecimal_rest rest
  end.

(** Modelled from the spec: [is_constant] of propositions/syntax.py, the two
    symbols [T] and [F]. *)
Definition is_constant (s : string) : bool :=
  (s =? "T") || (s =? "F").

(** Modelled from the spec: [is_unary] of propositions/syntax.py, only [~]. *)
Definition is_unary (s : string) : bool :=
  s =? "~".

Definition binary_operators : list string :=
  ["&"; "|"; "->"; "+"; "<->"; "-&"; "-|"].

(** Modelled from the spec: [is_binary] of propositions/syntax.py, the seven
    binary operator symbols of the data model. *)
Definition is_binary (s : string) : bool :=
  existsb (String.eqb s) binary_operators.

(** The trees the constructor of [Formula] accepts: the shape of every node
    matches the kind of its root. *)
Fixpoint well_formed (formula : Formula) : bool :=
  match formula with
  | Formula0 r => is_variable r || is_constant r
  | Formula1 r first => is_unary r && well_formed first
  | Formula2 r first second =>
      is_binary r && well_formed first && well_formed second
  end.

(** ** Variables and evaluation *)

(** Modelled from the spec: method [Formula.variables] of
    propositions/syntax.py, the set of the variable names that occur in the
    tree. *)
Fixpoint variables (formula : Formula) : gset string :=
  match formula with
  | Formula0 r => if is_variable r then {[ r ]} else ∅
  | Formula1 _ first => variables first
  | Formula2 _ first second => variables first ∪ variables second
  end.

(** [next(iter(s), default)]: some element of the set, the default when the
    set is empty.  Python does not say which element of a set with several
    comes first; here it is the first of [elements]. *)
Definition next_iter (s : gset string) (default : string) : string :=
  match elements s with
  | [] => default
  | x :: _ => x
  end.

Definition Model : Type := string → bool.

(** Modelled from the spec: the truth value of a binary operator applied to
    the truth values of its operands (and, or, implies, xor, iff, nand,
    nor). *)
Definition evaluate_binary (op : string) (a b : bool) : option bool :=
  if op =? "&" then Some (a && b)
  else if op =? "|" then Some (a || b)
  else if op =? "->" then Some (implb a b)
  else if op =? "+" then Some (xorb a b)
  else if op =? "<->" then Some (eqb a b)
  else if op =? "-&" then Some (negb (a && b))
  else if op =? "-|" then Some (negb (a || b))
  else None.

(** Modelled from the spec: [evaluate] of propositions/semantics.py, the
    truth value of a formula under an assignment; [None] where the tree has no
    truth value (a symbol that is no variable, constant or operator of the
    arity of the node). *)
Fixpoint evaluate (formula : Formula) (model : Model) : option bool :=
  match formula with
  | Formula0 r =>
      if is_constant r then Some (r =? "T")
      else if is_variable r then Some (model r)
      else None
  | Formula1 r first =>
      if is_unary r then negb <$> evaluate first model else None
  | Formula2 r first second =>
      a ← evaluate first model;
      b ← evaluate second model;
      evaluate_binary r a b
  end.

(** ** The conversions *)

Fixpoint to_not_and_or (formula : Formula) : result Formula :=
  if is_variable (root formula) then Ok formula
  else if is_constant (root formula) then
    let var := next_iter (variables formula) "p" in
    if root formula =? "T" then
      Ok (Formula2 "|" (Formula0 var) (Formula1 "~" (Formula0 var)))
    else
      Ok (Formula2 "&" (Formula0 var) (Formula1 "~" (Formula0 var)))
  else if is_unary (root formula) then
    match formula with
    | Formula0 _ => Raise (AttributeError "first")
    | Formula1 _ first | Formula2 _ first _ =>
        a ← to_not_and_or first; Ok (Formula1 "~" a)
    end
  else if negb (is_binary (root formula)) then Raise AssertionError
  else
    match formula with
    | Formula0 _ => Raise (AttributeError "first")
    | Formula1 _ first =>
        _ ← to_not_and_or first; Raise (AttributeError "second")
    | Formula2 r first second =>
        left ← to_not_and_or first;
        right ← to_not_and_or second;
        if r =? "&" then Ok (Formula2 "&" left right)
        else if r =? "|" then Ok (Formula2 "|" left right)
        else if r =? "->" then Ok (Formula2 "|" (Formula1 "~" left) right)
        else if r =? "+" then
          Ok (Formula2 "|"
                (Formula2 "&" left (Formula1 "~" right))
                (Formula2 "&" (Formula1 "~" left) right))
        else if r =? "<->" then
          Ok (Formula2 "|"
                (Formula2 "&" left right)
                (Formula2 "&" (Formula1 "~" left) (Formula1 "~" right)))
        else if r =? "-&" then Ok (Formula1 "~" (Formula2 "&" left right))
        else if r =? "-|" then Ok (Formula1 "~" (Formula2 "|" left right))
        else Raise (ValueError ("Unknown operator: " ++ r))
    end.

(** The inner function [convert] of [to_not_and]. *)
Fixpoint to_not_and_convert (f : Formula) : result Formula :=
  if is_variable (root f) then Ok f
  else if is_unary (root f) then
    match f with
    | Formula0 _ => Raise (AttributeError "first")
    | Formula1 _ first | Formula2 _ first _ =>
        a ← to_not_and_convert first; Ok (Formula1 "~" a)
    end
  else if root f =? "&" then
    match f with
    | Formula0 _ => Raise (AttributeError "first")
    | Formula1 _ first =>
        _ ← to_not_and_convert first; Raise (AttributeError "second")
    | Formula2 _ first second =>
        a ← to_not_and_convert first;
        b ← to_not_and_convert second;
        Ok (Formula2 "&" a b)
    end
  else if root f =? "|" then
    match f with
    | Formula0 _ => Raise (AttributeError "first")
    | Formula1 _ first =>
        _ ← to_not_and_convert first; Raise (AttributeError "second")
    | Formula2 _ first second =>
        a ← to_not_and_convert first;
        b ← to_not_and_convert second;
        Ok (Formula1 "~" (Formula2 "&" (Formula1 "~" a) (Formula1 "~" b)))
    end
  else Raise (ValueError ("Unexpected operator: " ++ root f)).

Definition to_not_and (formula : Formula) : result Formula :=
  to_not_and_or formula ≫= to_not_and_convert.

(** The inner function [convert] of [to_nand]. *)
Fixpoint to_nand_convert (f : Formula) : result Formula :=
  if is_variable (root f) then Ok f
  else if is_unary (root f) then
    match f with
    | Formula0 _ => Raise (AttributeError "first")
    | Formula1 _ first | Formula2 _ first _ =>
        a ← to_nand_convert first; Ok (Formula2 "-&" a a)
    end
  else if root f =? "&" then
    match f with
    | Formula0 _ => Raise (AttributeError "first")
    | Formula1 _ first =>
        _ ← to_nand_convert first; Raise (AttributeError "second")
    | Formula2 _ first second =>
        a ← to_nand_convert first;
        b ← to_nand_convert second;
        let nand := Formula2 "-&" a b in
        Ok (Formula2 "-&" nand nand)
    end
  else if root f =? "|" then
    match f with
    | Formula0 _ => Raise (AttributeError "first")
    | Formula1 _ first =>
        _ ← to_nand_convert first; Raise (AttributeError "second")
    | Formula2 _ first second =>
        a ← to_nand_convert first;
        b ← to_nand_convert second;
        Ok (Formula2 "-&" (Formula2 "-&" a a) (Formula2 "-&" b b))
    end
  else Raise (ValueError ("Unexpected operator: " ++ root f)).

Definition to_nand (formula : Formula) : result Formula :=
  to_not_and_or formula ≫= to_nand_convert.

(** The inner function [convert] of [to_implies_not]. *)
Fixpoint to_implies_not_convert (f : Formula) : result Formula :=
  if is_variable (root f) then Ok f
  else if is_unary (root f) then
    match f with
    | Formula0 _ => Raise (AttributeError "first")
    | Formula1 _ first | Formula2 _ first _ =>
        a ← to_implies_not_convert first; Ok (Formula1 "~" a)
    end
  else if root f =? "|" then
    match f with
    | Formula0 _ => Raise (AttributeError "first")
    | Formula1 _ first =>
        _ ← to_implies_not_convert first; Raise (AttributeError "second")
    | Formula2 _ first second =>
        a ← to_implies_not_convert first;
        b ← to_implies_not_convert second;
        Ok (Formula2 "->" (Formula1 "~" a) b)
    end
  else if root f =? "&" then
    match f with
    | Formula0 _ => Raise (AttributeError "first")
    | Formula1 _ first =>
        _ ← to_implies_not_convert first; Raise (AttributeError "second")
    | Formula2 _ first second =>
        a ← to_implies_not_convert first;
        b ← to_implies_not_convert second;
        Ok (Formula1 "~" (Formula2 "->" a (Formula1 "~" b)))
    end
  else Raise (ValueError ("Unexpected operator: " ++ root f)).

Definition to_implies_not (formula : Formula) : result Formula :=
  to_not_and_or formula ≫= to_implies_not_convert.

(** The inner function [convert] of [to_implies_false]. *)
Fixpoint to_implies_false_convert (f : Formula) : result Formula :=
  if is_variable (root f) then Ok f
  else if is_constant (root f) then
    if root f =? "F" then Ok f
    else Ok (Formula2 "->" (Formula0 "F") (Formula0 "F"))
  else if is_unary (root f) then
    match f with
    | Formula0 _ => Raise (AttributeError "first")
    | Formula1 _ first | Formula2 _ first _ =>
        a ← to_implies_false_convert first;
        Ok (Formula2 "->" a (Formula0 "F"))
    end
  else if root f =? "->" then
    match f with
    | Formula0 _ => Raise (AttributeError "first")
    | Formula1 _ first =>
        _ ← to_implies_false_convert first; Raise (AttributeError "second")
    | Formula2 _ first second =>
        a ← to_implies_false_convert first;
        b ← to_implies_false_convert second;
        Ok (Formula2 "->" a b)
    end
  else Raise (ValueError ("Unexpected operator: " ++ root f)).

Definition to_implies_false (formula : Formula) : result Formula :=
  to_implies_not formula ≫= to_implies_false_convert.

(** ** Vocabulary of the properties *)

(** [over consts ops formula]: every leaf is a variable or one of the
    constants [consts], every inner node carries an operator of [ops] of the
    right arity. *)
Fixpoint over (consts ops : list string) (formula : Formula) : bool :=
  match formula with
  | Formula0 r =>
      is_variable r || (is_constant r && existsb (String.eqb r) consts)
  | Formula1 r first =>
      is_unary r && existsb (String.eqb r) ops && over consts ops first
  | Formula2 r first second =>
      is_binary r && existsb (String.eqb r) ops
      && over consts ops first && over consts ops second
  end.

(** The number of nodes whose root satisfies [p]. *)
Fixpoint count_roots (p : string → bool) (formula : Formula) : nat :=
  (if p (root formula) then 1 else 0) +
  match formula with
  | Formula0 _ => 0
  | Formula1 _ first => count_roots p first
  | Formula2 _ first second => count_roots p first + count_roots p second
  end.

(** The trees whose nodes are either as the constructor builds them or carry
    a symbol that is no variable, constant or operator at all. *)
Definition unknown_symbol (s : string) : bool :=
  negb (is_variable s || is_constant s || is_unary s || is_binary s).

Fixpoint shaped (formula : Formula) : bool :=
  match formula with
  | Formula0 r => is_variable r || is_constant r || unknown_symbol r
  | Formula1 r first => (is_unary r || unknown_symbol r) && shaped first
  | Formula2 r first second =>
      (is_binary r || unknown_symbol r) && shaped first && shaped second
  end.

Definition tautology (formula : Formula) : Prop :=
  ∀ model : Model, evaluate formula model = Some true.

Definition contradiction (formula : Formula) : Prop :=
  ∀ model : Model, evaluate formula model = Some false.

Definition var_p : Formula := Formula0 "p".
Definition var_q : Formula := Formula0 "q".

(** The constant rewrite with the witness variable given, as the
    specification words it: [(v | ~v)] for [T] and [(v & ~v)] for [F]. *)
Definition constant_with (v : string) (r : string) : Formula :=
  if r =? "T" then Formula2 "|" (Formula0 v) (Formula1 "~" (Formula0 v))
  else Formula2 "&" (Formula0 v) (Formula1 "~" (Formula0 v)).

(** Operator sets of the five target bases. *)
Definition not_and_or : list string := ["~"; "&"; "|"].
Definition not_and : list string := ["~"; "&"].
Definition nand : list string := ["-&"].
Definition implies_not : list string := ["->"; "~"].
Definition implies : list string := ["->"].

(** Some node of the tree has a root that satisfies [p]. *)
Fixpoint some_root (p : string → bool) (formula : Formula) : bool :=
  p (root formula) ||
  match formula with
  | Formula0 _ => false
  | Formula1 _ first => some_root p first
  | Formula2 _ first second => some_root p first || some_root p second
  end.

(** [c] is a node of [formula], taken with the tree below it. *)
Fixpoint subformula (c formula : Formula) : Prop :=
  c = formula ∨
  match formula with
  | Formula0 _ => False
  | Formula1 _ first => subformula c first
  | Formula2 _ first second => subformula c first ∨ subformula c second
  end.

(** The symbols each stage has a case for. *)
Definition handled_by_to_not_and_or (s : string) : bool :=
  is_variable s || is_constant s || is_unary s || is_binary s.

Definition handled_by_convert (s : string) : bool :=
  is_variable s || is_unary s || (s =? "&") || (s =? "|").

Definition handled_by_implies_false_convert (s : string) : bool :=
  is_variable s || is_constant s || is_unary s || (s =? "->").

Definition unhandled (handled : string → bool) (s : string) : bool :=
  negb (handled s).

(** Two assignments that give the variables of [formula] the same values. *)
Definition agree_on (formula : Formula) (m m' : Model) : Prop :=
  ∀ x, x ∈ variables formula → m x = m' x.

(** The outcome of a stage in terms of the verdict of [some_root]. *)
Definition outcome (handled : string → bool) (stage : Formula → result Formula)
    (error : string → exn → Prop) (f : Formula) : Prop :=
  if some_root (unhandled handled) f
  then ∃ s e, handled s = false ∧ error s e ∧ stage f = Raise e
  else ∃ g, stage f = Ok g.

Definition unexpected_operator (s : string) (e : exn) : Prop :=
  e = ValueError ("Unexpected operator: " ++ s).

Definition failed_assertion (s : string) (e : exn) : Prop :=
  e = AssertionError.

(** Formulas and assignments the examples use. *)
Definition imp_p_q : Formula := Formula2 "->" var_p var_q.
Definition q_and_T : Formula := Formula2 "&" var_q (Formula0 "T").
Definition not_p : Formula := Formula1 "~" var_p.
Definition percent_p_q : Formula := Formula2 "%" var_p var_q.
Definition p_or_not_p : Formula := Formula2 "|" var_p (Formula1 "~" var_p).
Definition p_and_not_p : Formula := Formula2 "&" var_p (Formula1 "~" var_p).

(** An assignment to [p] and [q]. *)
Definition assign (vp vq : bool) : Model :=
  λ x, if x =? "p" then vp else vq.

(** The variable the constant rewrite brings in: [p] when the tree has a
    constant node, nothing otherwise. *)
Definition witness_variable (formula : Formula) : gset string :=
  if some_root is_constant formula then {["p"]} else ∅.

(** The number of nodes on the longest branch. *)
Fixpoint height (formula : Formula) : nat :=
  match formula with
  | Formula0 _ => 1
  | Formula1 _ first => S (height first)
  | Formula2 _ first second => S (Nat.max (height first) (height second))
  end.

(** The first symbol without a case, in the order a stage visits the nodes:
    a node before its children, the first child before the second. *)
Fixpoint first_unhandled (handled : string → bool) (formula : Formula)
    : option string :=
  if handled (root formula) then
    match formula with
    | Formula0 _ => None
    | Formula1 _ first => first_unhandled handled first
    | Formula2 _ first second =>
        match first_unhandled handled first with
        | Some s => Some s
        | None => first_unhandled handled second
        end
    end
  else Some (root formula).

(** What a second stage does at the first symbol it has no case for. *)
Definition stops_at_first (handled : string → bool)
    (stage : Formula → result Formula) (f : Formula) : Prop :=
  match first_unhandled handled f with
  | Some s => stage f = Raise (ValueError ("Unexpected operator: " ++ s))
  | None => ∃ g, stage f = Ok g
  end.

Definition is_F (formula : Formula) : bool :=
  match formula with
  | Formula0 r => r =? "F"
  | _ => false
  end.

(** Constants occur only as the leaf [F] in the second operand of a binary
    node. *)
Fixpoint F_only_right (formula : Formula) : bool :=
  match formula with
  | Formula0 r => negb (is_constant r)
  | Formula1 _ first => F_only_right first
  | Formula2 _ first second =>
      F_only_right first && (is_F second || F_only_right second)
  end.

Definition T_implies_not_p : Formula := Formula2 "->" (Formula0 "T") not_p.

(** ** The root classifier: case analysis *)

Section Classifier.

Lemma is_constant_cases r : is_constant r = true → r = "T" ∨ r = "F".
Proof.
  unfold is_constant. intros H. apply orb_prop in H.
  destruct H as [H|H]; apply String.eqb_eq in H; auto.
Qed.

Lemma is_unary_eq r : is_unary r = true → r = "~".
Proof. unfold is_unary. apply String.eqb_eq. Qed.

Lemma is_binary_cases r :
  is_binary r = true →
  r = "&" ∨ r = "|" ∨ r = "->" ∨ r = "+" ∨ r = "<->" ∨ r = "-&" ∨ r = "-|".
Proof.
  unfold is_binary. intros H. apply existsb_exists in H.
  destruct H as (x & Hin & Heq). apply String.eqb_eq in Heq. subst x.
  simpl in Hin. intuition auto.
Qed.

(** A variable name is none of the other symbols. *)
Lemma is_variable_neq r s :
  is_variable r = true → is_variable s = false → (r =? s) = false.
Proof.
  intros Hr Hs. destruct (String.eqb_spec r s) as [->|]; congruence.
Qed.

Lemma is_variable_not_constant r :
  is_variable r = true → is_constant r = false.
Proof.
  intros H. unfold is_constant.
  rewrite !(is_variable_neq r) by (assumption || reflexivity). reflexivity.
Qed.

Lemma is_variable_not_unary r : is_variable r = true → is_unary r = false.
Proof. intros H. unfold is_unary. now apply is_variable_neq. Qed.

Lemma is_variable_not_binary r : is_variable r = true → is_binary r = false.
Proof.
  intros H. unfold is_binary, binary_operators. simpl.
  rewrite !(is_variable_neq r) by (assumption || reflexivity). reflexivity.
Qed.

Lemma is_variable_p : is_variable "p" = true.
Proof. reflexivity. Qed.

End Classifier.

Ltac bool_inv :=
  repeat match goal with
    | H : _ && _ = true |- _ => apply andb_prop in H; destruct H
    | H : _ || _ = true |- _ => apply orb_prop in H; destruct H
    | H : is_unary _ = true |- _ => apply is_unary_eq in H; subst
    end.

(** Split a root known to be a constant or a binary operator into its
    concrete spellings. *)
Ltac root_cases :=
  repeat match goal with
    | H : is_constant ?r = true |- _ =>
        destruct (is_constant_cases r H) as [-> | ->]; try clear H
    | H : is_binary ?r = true |- _ =>
        destruct (is_binary_cases r H)
          as [-> | [-> | [-> | [-> | [-> | [-> | ->]]]]]]; try clear H
    end.

(** ** Evaluation depends on the variables of the formula only *)

Lemma evaluate_agree formula m m' :
  agree_on formula m m' → evaluate formula m = evaluate formula m'.
Proof.
  unfold agree_on. induction formula as [r | r a IHa | r a IHa b IHb];
    simpl; intros Hag.
  - destruct (is_constant r); [reflexivity|].
    destruct (is_variable r) eqn:Hv; [|reflexivity].
    f_equal. apply Hag. set_solver.
  - rewrite IHa by assumption. reflexivity.
  - rewrite IHa, IHb by (intros; apply Hag; set_solver). reflexivity.
Qed.

Ltac eval_cases a b m :=
  destruct (evaluate a m) as [[]|], (evaluate b m) as [[]|]; reflexivity.

(** A unary node of a stage: run the stage on the child by the induction
    hypothesis, then compare the truth tables case by case. *)
Ltac unary_sound IH H a :=
  let a' := fresh "a'" in
  let Ha := fresh "Ha" in
  let Hoa := fresh "Hoa" in
  let Hea := fresh "Hea" in
  let m := fresh "m" in
  destruct (IH H) as (a' & Ha & Hoa & Hea);
  eexists; cbn; rewrite Ha; cbn; split; [reflexivity|];
  cbn; rewrite Hoa; split; [reflexivity|];
  intros m; rewrite Hea; destruct (evaluate a m) as [[]|]; reflexivity.

(** The same for a binary node. *)
Ltac binary_sound IHa Hfirst a IHb Hsecond b :=
  let a' := fresh "a'" in
  let Ha := fresh "Ha" in
  let Hoa := fresh "Hoa" in
  let Hea := fresh "Hea" in
  let b' := fresh "b'" in
  let Hb := fresh "Hb" in
  let Hob := fresh "Hob" in
  let Heb := fresh "Heb" in
  let m := fresh "m" in
  destruct (IHa Hfirst) as (a' & Ha & Hoa & Hea);
  destruct (IHb Hsecond) as (b' & Hb & Hob & Heb);
  eexists; cbn; rewrite Ha, Hb; cbn; split; [reflexivity|];
  cbn; rewrite Hoa, Hob; split; [reflexivity|];
  intros m; rewrite Hea, Heb; eval_cases a b m.

(** ** [to_not_and_or] on the trees the constructor builds *)

Lemma to_not_and_or_sound f :
  well_formed f = true →
  ∃ g, to_not_and_or f = Ok g
       ∧ over [] not_and_or g = true
       ∧ ∀ m, evaluate g m = evaluate f m.
Proof.
  induction f as [r | r a IHa | r a IHa b IHb]; simpl; intros Hwf; bool_inv.
  - exists (Formula0 r). rewrite H. simpl. rewrite H. auto.
  - root_cases; eexists; (split; [vm_compute; reflexivity|]);
      (split; [reflexivity|]); intros m; cbn; destruct (m "p"); reflexivity.
  - unary_sound IHa H0 a.
  - root_cases; binary_sound IHa H1 a IHb H0 b.
Qed.

(** ** The second stages on trees over their input basis *)

Lemma over_leaf ops r : over [] ops (Formula0 r) = true → is_variable r = true.
Proof.
  simpl. rewrite andb_false_r, orb_false_r. auto.
Qed.

Lemma over_unary consts ops r a :
  over consts ops (Formula1 r a) = true →
  r = "~" ∧ In r ops ∧ over consts ops a = true.
Proof.
  simpl. intros H. bool_inv. repeat split; auto.
  apply existsb_exists in H1. destruct H1 as (x & Hin & Heq).
  apply String.eqb_eq in Heq. now subst x.
Qed.

Lemma over_binary consts ops r a b :
  over consts ops (Formula2 r a b) = true →
  is_binary r = true ∧ In r ops
  ∧ over consts ops a = true ∧ over consts ops b = true.
Proof.
  simpl. intros H. bool_inv. repeat split; auto.
  apply existsb_exists in H2. destruct H2 as (x & Hin & Heq).
  apply String.eqb_eq in Heq. now subst x.
Qed.

(** Invert a hypothesis [over _ _ node = true] at a node of known shape and
    enumerate the operators the basis allows there. *)
Ltac over_inv H :=
  match type of H with
  | over [] _ (Formula0 _) = true => apply over_leaf in H
  | over _ _ (Formula1 _ _) = true =>
      apply over_unary in H; destruct H as (-> & _ & H)
  | over _ _ (Formula2 _ _ _) = true =>
      let Hb := fresh "Hbin" in
      let Hin := fresh "Hin" in
      let H1 := fresh "Hfirst" in
      let H2 := fresh "Hsecond" in
      apply over_binary in H; destruct H as (Hb & Hin & H1 & H2);
      simpl in Hin;
      repeat (destruct Hin as [<- | Hin]; [try discriminate Hb|]);
      try contradiction
  end.

Lemma to_not_and_convert_sound f :
  over [] not_and_or f = true →
  ∃ g, to_not_and_convert f = Ok g
       ∧ over [] not_and g = true
       ∧ ∀ m, evaluate g m = evaluate f m.
Proof.
  induction f as [r | r a IHa | r a IHa b IHb]; intros Hov; over_inv Hov.
  - exists (Formula0 r). simpl. rewrite Hov. auto.
  - unary_sound IHa Hov a.
  - binary_sound IHa Hfirst a IHb Hsecond b.
  - binary_sound IHa Hfirst a IHb Hsecond b.
Qed.

Lemma to_nand_convert_sound f :
  over [] not_and_or f = true →
  ∃ g, to_nand_convert f = Ok g
       ∧ over [] nand g = true
       ∧ ∀ m, evaluate g m = evaluate f m.
Proof.
  induction f as [r | r a IHa | r a IHa b IHb]; intros Hov; over_inv Hov.
  - exists (Formula0 r). simpl. rewrite Hov. auto.
  - unary_sound IHa Hov a.
  - binary_sound IHa Hfirst a IHb Hsecond b.
  - binary_sound IHa Hfirst a IHb Hsecond b.
Qed.

Lemma to_implies_not_convert_sound f :
  over [] not_and_or f = true →
  ∃ g, to_implies_not_convert f = Ok g
       ∧ over [] implies_not g = true
       ∧ ∀ m, evaluate g m = evaluate f m.
Proof.
  induction f as [r | r a IHa | r a IHa b IHb]; intros Hov; over_inv Hov.
  - exists (Formula0 r). simpl. rewrite Hov. auto.
  - unary_sound IHa Hov a.
  - binary_sound IHa Hfirst a IHb Hsecond b.
  - binary_sound IHa Hfirst a IHb Hsecond b.
Qed.

Lemma to_implies_false_convert_sound f :
  over [] implies_not f = true →
  ∃ g, to_implies_false_convert f = Ok g
       ∧ over ["F"] implies g = true
       ∧ (∀ m, evaluate g m = evaluate f m)
       ∧ count_roots is_constant g = count_roots is_unary f.
Proof.
  induction f as [r | r a IHa | r a IHa b IHb]; intros Hov; over_inv Hov.
  - exists (Formula0 r). simpl. rewrite Hov.
    rewrite is_variable_not_constant, is_variable_not_unary by assumption.
    auto.
  - destruct (IHa Hov) as (a' & Ha & Hoa & Hea & Hca).
    eexists. cbn. rewrite Ha. cbn. split; [reflexivity|].
    cbn. rewrite Hoa. split; [reflexivity|]. split.
    + intros m. rewrite Hea. destruct (evaluate a m) as [[]|]; reflexivity.
    + rewrite Hca. lia.
  - destruct (IHa Hfirst) as (a' & Ha & Hoa & Hea & Hca).
    destruct (IHb Hsecond) as (b' & Hb & Hob & Heb & Hcb).
    eexists. cbn. rewrite Ha, Hb. cbn. split; [reflexivity|].
    cbn. rewrite Hoa, Hob. split; [reflexivity|]. split.
    + intros m. rewrite Hea, Heb. eval_cases a b m.
    + rewrite Hca, Hcb. reflexivity.
Qed.

(** ** The four conversions that run a second stage *)

Ltac compose_stage first_sound second_sound :=
  let g := fresh "g" in
  let h := fresh "h" in
  intros Hwf;
  destruct (first_sound _ Hwf) as (g & Hg & Hog & Heg);
  destruct (second_sound _ Hog) as (h & Hh & Hoh & Heh);
  exists h; cbn; rewrite Hg; cbn; repeat split; auto;
  intros m; rewrite Heh; apply Heg.

Lemma to_not_and_sound f :
  well_formed f = true →
  ∃ g, to_not_and f = Ok g
       ∧ over [] not_and g = true
       ∧ ∀ m, evaluate g m = evaluate f m.
Proof.
  unfold to_not_and.
  compose_stage to_not_and_or_sound to_not_and_convert_sound.
Qed.

Lemma to_nand_sound f :
  well_formed f = true →
  ∃ g, to_nand f = Ok g
       ∧ over [] nand g = true
       ∧ ∀ m, evaluate g m = evaluate f m.
Proof.
  unfold to_nand. compose_stage to_not_and_or_sound to_nand_convert_sound.
Qed.

Lemma to_implies_not_sound f :
  well_formed f = true →
  ∃ g, to_implies_not f = Ok g
       ∧ over [] implies_not g = true
       ∧ ∀ m, evaluate g m = evaluate f m.
Proof.
  unfold to_implies_not.
  compose_stage to_not_and_or_sound to_implies_not_convert_sound.
Qed.

Lemma to_implies_false_sound f :
  well_formed f = true →
  ∃ g, to_implies_false f = Ok g
       ∧ over ["F"] implies g = true
       ∧ ∀ m, evaluate g m = evaluate f m.
Proof.
  intros Hwf.
  destruct (to_implies_not_sound _ Hwf) as (g & Hg & Hog & Heg).
  destruct (to_implies_false_convert_sound _ Hog) as (h & Hh & Hoh & Heh & _).
  exists h. unfold to_implies_false. rewrite Hg. cbn. repeat split; auto.
  intros m. rewrite Heh. apply Heg.
Qed.

(** ** Facts about trees over a basis *)

(** A tree over a basis is one the constructor accepts. *)
Lemma over_well_formed consts ops g :
  over consts ops g = true → well_formed g = true.
Proof.
  induction g as [r | r a IHa | r a IHa b IHb]; simpl; intros H; bool_inv;
    rewrite ?IHa, ?IHb by assumption; try reflexivity.
  - now rewrite H.
  - rewrite H. apply orb_true_r.
  - match goal with Hb : is_binary r = true |- _ => now rewrite Hb end.
Qed.

(** No node of a tree over a basis carries a symbol that is neither a
    variable name nor in the basis. *)
Lemma over_some_root consts ops (p : string → bool) g :
  (∀ r, p r = true → is_variable r = false ∧ ¬ In r consts ∧ ¬ In r ops) →
  over consts ops g = true → some_root p g = false.
Proof.
  intros Hp.
  assert (Hmem : ∀ r l, p r = true → existsb (String.eqb r) l = true →
                        In r l).
  { intros r l _ H. apply existsb_exists in H. destruct H as (x & Hin & Heq).
    apply String.eqb_eq in Heq. now subst x. }
  induction g as [r | r a IHa | r a IHa b IHb]; simpl; intros H.
  - rewrite orb_false_r. destruct (p r) eqn:Hr; [|reflexivity].
    destruct (Hp r Hr) as (Hv & Hc & _). rewrite Hv in H. simpl in H.
    apply andb_prop in H. destruct H as [_ H]. now apply Hmem in H.
  - apply andb_prop in H. destruct H as [H Ha]. apply andb_prop in H.
    destruct H as [_ H]. rewrite (IHa Ha), orb_false_r.
    destruct (p r) eqn:Hr; [|reflexivity].
    destruct (Hp r Hr) as (_ & _ & Ho). now apply Hmem in H.
  - apply andb_prop in H. destruct H as [H Hb]. apply andb_prop in H.
    destruct H as [H Ha]. apply andb_prop in H. destruct H as [_ H].
    rewrite (IHa Ha), (IHb Hb), !orb_false_r.
    destruct (p r) eqn:Hr; [|reflexivity].
    destruct (Hp r Hr) as (_ & _ & Ho). now apply Hmem in H.
Qed.

Lemma some_root_count p g :
  some_root p g = false ↔ count_roots p g = 0.
Proof.
  induction g as [r | r a IHa | r a IHa b IHb]; simpl;
    destruct (p r); simpl; try tauto; try (split; [discriminate | lia]).
  - rewrite orb_false_iff, IHa, IHb. lia.
Qed.

(** A tree free of constants and of operators other than [~], [&], [|]
    carries no constant. *)
Lemma over_no_constant ops g :
  ¬ In "T" ops → ¬ In "F" ops →
  over [] ops g = true → count_roots is_constant g = 0.
Proof.
  intros HT HF H. apply some_root_count.
  apply (over_some_root [] ops); [|assumption].
  intros r Hr. destruct (is_constant_cases r Hr) as [-> | ->];
    repeat split; auto.
Qed.

(** ** When a stage raises *)

Lemma unknown_symbol_inv r :
  unknown_symbol r = true →
  is_variable r = false ∧ is_constant r = false
  ∧ is_unary r = false ∧ is_binary r = false.
Proof.
  unfold unknown_symbol. rewrite negb_true_iff, !orb_false_iff. tauto.
Qed.

Lemma is_binary_false_neq r s :
  is_binary r = false → In s binary_operators → (r =? s) = false.
Proof.
  intros Hr Hin. destruct (String.eqb_spec r s) as [-> | ]; [|reflexivity].
  rewrite <- Hr. symmetry. apply existsb_exists. exists s.
  split; [assumption | apply String.eqb_refl].
Qed.

Lemma some_root_here p f : p (root f) = true → some_root p f = true.
Proof. intros H. destruct f; simpl in *; now rewrite H. Qed.

(** A node whose symbol the stage has no case for. *)
Lemma outcome_unhandled handled stage error f :
  handled (root f) = false →
  (∃ e, error (root f) e ∧ stage f = Raise e) →
  outcome handled stage error f.
Proof.
  intros Hh (e & He & Hf). unfold outcome.
  rewrite some_root_here by (unfold unhandled; now rewrite Hh). eauto.
Qed.

Lemma to_not_and_or_unhandled f :
  handled_by_to_not_and_or (root f) = false →
  to_not_and_or f = Raise AssertionError.
Proof.
  unfold handled_by_to_not_and_or. rewrite !orb_false_iff.
  intros (((Hv & Hc) & Hu) & Hb).
  destruct f; cbn [root] in *; cbn [to_not_and_or root];
    rewrite Hv, Hc, Hu, Hb; reflexivity.
Qed.

Lemma to_not_and_convert_unhandled f :
  handled_by_convert (root f) = false →
  to_not_and_convert f = Raise (ValueError ("Unexpected operator: " ++ root f)).
Proof.
  unfold handled_by_convert. rewrite !orb_false_iff.
  intros (((Hv & Hu) & Hand) & Hor).
  destruct f; cbn [root] in *; cbn [to_not_and_convert root];
    rewrite Hv, Hu, Hand, Hor; reflexivity.
Qed.

Lemma to_nand_convert_unhandled f :
  handled_by_convert (root f) = false →
  to_nand_convert f = Raise (ValueError ("Unexpected operator: " ++ root f)).
Proof.
  unfold handled_by_convert. rewrite !orb_false_iff.
  intros (((Hv & Hu) & Hand) & Hor).
  destruct f; cbn [root] in *; cbn [to_nand_convert root];
    rewrite Hv, Hu, Hand, Hor; reflexivity.
Qed.

Lemma to_implies_not_convert_unhandled f :
  handled_by_convert (root f) = false →
  to_implies_not_convert f
  = Raise (ValueError ("Unexpected operator: " ++ root f)).
Proof.
  unfold handled_by_convert. rewrite !orb_false_iff.
  intros (((Hv & Hu) & Hand) & Hor).
  destruct f; cbn [root] in *; cbn [to_implies_not_convert root];
    rewrite Hv, Hu, Hor, Hand; reflexivity.
Qed.

Lemma to_implies_false_convert_unhandled f :
  handled_by_implies_false_convert (root f) = false →
  to_implies_false_convert f
  = Raise (ValueError ("Unexpected operator: " ++ root f)).
Proof.
  unfold handled_by_implies_false_convert. rewrite !orb_false_iff.
  intros (((Hv & Hc) & Hu) & Himp).
  destruct f; cbn [root] in *; cbn [to_implies_false_convert root];
    rewrite Hv, Hc, Hu, Himp; reflexivity.
Qed.

(** A symbol that is no symbol at all is handled by no stage. *)
Lemma unknown_symbol_unhandled r :
  unknown_symbol r = true →
  handled_by_to_not_and_or r = false
  ∧ handled_by_convert r = false
  ∧ handled_by_implies_false_convert r = false.
Proof.
  intros H. destruct (unknown_symbol_inv _ H) as (Hv & Hc & Hu & Hb).
  unfold handled_by_to_not_and_or, handled_by_convert,
    handled_by_implies_false_convert.
  rewrite Hv, Hc, Hu, Hb.
  rewrite !(is_binary_false_neq r) by (assumption || (simpl; tauto)).
  auto.
Qed.

(** One node of the induction whose symbol the stage handles: the children
    are settled by the induction hypotheses, the node itself by
    computation. *)
(** Replace a test on a concrete symbol by its value. *)
Ltac ground_test t :=
  let v := eval vm_compute in t in
  match v with
  | true => idtac
  | false => idtac
  end;
  change t with v.

Ltac ground_chars :=
  repeat match goal with
    | |- context [Ascii.leb ?a ?b] => ground_test (Ascii.leb a b)
    | |- context [unhandled ?h ?s] => ground_test (unhandled h s)
    end.

Ltac settle_children :=
  repeat match goal with
    | IH : ?P → outcome _ _ _ _, H : ?P |- _ => specialize (IH H)
    end;
  unfold outcome in *; cbn in *; ground_chars; cbn;
  repeat match goal with
    | IH : (if some_root ?p ?a then _ else _) |- _ =>
        destruct (some_root p a);
        [ destruct IH as (? & ? & ? & ? & ->); cbn; eauto 6
        | destruct IH as (? & ->); cbn ]
    end;
  eauto.

(** The skeleton shared by the five stages: an unhandled root is settled by
    the lemma [unhandled_lemma], a handled one by shape. *)
Ltac stage_outcome handled unhandled_lemma :=
  let f := fresh "f" in
  let Hs := fresh "Hs" in
  intros f;
  induction f as [r | r a IHa | r a IHa b IHb]; intros Hs;
    match goal with
    | |- outcome _ _ _ ?t => destruct (handled (root t)) eqn:?
    end;
    try (apply outcome_unhandled;
         [ assumption
         | eexists; split; [reflexivity | now apply unhandled_lemma] ]);
    cbn [shaped] in Hs; cbn [root] in *; bool_inv; root_cases;
    try match goal with
      | Hh : handled _ = true |- _ => vm_compute in Hh; discriminate
      end;
    try match goal with
      | Hu : unknown_symbol _ = true |- _ =>
          apply unknown_symbol_unhandled in Hu; destruct Hu as (? & ? & ?);
          congruence
      end;
    try (settle_children; fail).

(** What is left is the variable leaf, which every stage returns as it
    is. *)
Ltac variable_leaf :=
  unfold outcome; cbn [some_root root]; unfold unhandled;
  match goal with
  | Hh : _ ?r = true, Hv : is_variable ?r = true |- _ =>
      rewrite Hh; cbn [negb orb]; eexists; simpl; rewrite Hv; reflexivity
  end.

Lemma to_not_and_or_outcome :
  ∀ f, shaped f = true →
       outcome handled_by_to_not_and_or to_not_and_or failed_assertion f.
Proof.
  stage_outcome handled_by_to_not_and_or to_not_and_or_unhandled.
  variable_leaf.
Qed.

Lemma to_not_and_convert_outcome :
  ∀ f, shaped f = true →
       outcome handled_by_convert to_not_and_convert unexpected_operator f.
Proof.
  stage_outcome handled_by_convert to_not_and_convert_unhandled.
  variable_leaf.
Qed.

Lemma to_nand_convert_outcome :
  ∀ f, shaped f = true →
       outcome handled_by_convert to_nand_convert unexpected_operator f.
Proof.
  stage_outcome handled_by_convert to_nand_convert_unhandled.
  variable_leaf.
Qed.

Lemma to_implies_not_convert_outcome :
  ∀ f, shaped f = true →
       outcome handled_by_convert to_implies_not_convert unexpected_operator f.
Proof.
  stage_outcome handled_by_convert to_implies_not_convert_unhandled.
  variable_leaf.
Qed.

Lemma to_implies_false_convert_outcome :
  ∀ f, shaped f = true →
       outcome handled_by_implies_false_convert to_implies_false_convert
         unexpected_operator f.
Proof.
  stage_outcome handled_by_implies_false_convert
    to_implies_false_convert_unhandled.
  variable_leaf.
Qed.

(** The verdict of [outcome] read as an equivalence. *)
Lemma outcome_raises handled stage error f :
  outcome handled stage error f →
  raises (stage f) ↔ some_root (unhandled handled) f = true.
Proof.
  unfold outcome. destruct (some_root (unhandled handled) f).
  - intros (s & e & _ & _ & ->). simpl. tauto.
  - intros (g & ->). simpl. split; [tauto | discriminate].
Qed.

Lemma outcome_error handled stage error f e :
  outcome handled stage error f → stage f = Raise e →
  ∃ s, handled s = false ∧ error s e.
Proof.
  unfold outcome. destruct (some_root (unhandled handled) f).
  - intros (s & e' & Hs & He & ->) [= <-]. eauto.
  - intros (g & ->). discriminate.
Qed.

(** A shaped tree all of whose symbols are known is one the constructor
    builds. *)
Lemma shaped_handled_well_formed f :
  shaped f = true →
  some_root (unhandled handled_by_to_not_and_or) f = false →
  well_formed f = true.
Proof.
  assert (Hk : ∀ r, unknown_symbol r = true →
                    unhandled handled_by_to_not_and_or r = false → False).
  { intros r Hu. apply unknown_symbol_unhandled in Hu.
    destruct Hu as (Hu & _). unfold unhandled. rewrite Hu. discriminate. }
  induction f as [r | r a IHa | r a IHa b IHb]; cbn [shaped some_root root];
    rewrite ?orb_false_iff; intros Hs Hr; cbn [well_formed].
  - destruct Hr as [Hr _]. apply orb_prop in Hs. destruct Hs as [Hs | Hs];
      [assumption | destruct (Hk r Hs Hr)].
  - destruct Hr as [Hr Ha]. apply andb_prop in Hs. destruct Hs as [Hs Hsa].
    rewrite (IHa Hsa Ha), andb_true_r. apply orb_prop in Hs.
    destruct Hs as [Hs | Hs]; [assumption | destruct (Hk r Hs Hr)].
  - destruct Hr as [Hr [Ha Hb]]. apply andb_prop in Hs.
    destruct Hs as [Hs Hsb]. apply andb_prop in Hs. destruct Hs as [Hs Hsa].
    rewrite (IHa Hsa Ha), (IHb Hsb Hb), !andb_true_r. apply orb_prop in Hs.
    destruct Hs as [Hs | Hs]; [assumption | destruct (Hk r Hs Hr)].
Qed.

Lemma well_formed_shaped f : well_formed f = true → shaped f = true.
Proof.
  induction f as [r | r a IHa | r a IHa b IHb]; simpl; intros H.
  - now rewrite H.
  - apply andb_prop in H. destruct H as [-> Ha]. now rewrite IHa.
  - apply andb_prop in H. destruct H as [H Hb]. apply andb_prop in H.
    destruct H as [-> Ha]. now rewrite IHa, IHb.
Qed.

(** A conversion that runs a second stage raises exactly when its first
    stage does: what the first stage returns is in the basis of the second. *)
Lemma second_stage_raises (first second : Formula → result Formula) pre f :
  (∀ h, pre h = true → ∃ g, second h = Ok g) →
  (well_formed f = true → ∃ h, first f = Ok h ∧ pre h = true) →
  outcome handled_by_to_not_and_or first failed_assertion f →
  shaped f = true →
  raises (first f ≫= second)
  ↔ some_root (unhandled handled_by_to_not_and_or) f = true.
Proof.
  intros Hsecond Hfirst Hout Hs. unfold outcome in Hout.
  destruct (some_root (unhandled handled_by_to_not_and_or) f) eqn:Hr.
  - destruct Hout as (s & e & _ & _ & ->). simpl. tauto.
  - destruct (Hfirst (shaped_handled_well_formed f Hs Hr)) as (h & -> & Hh).
    destruct (Hsecond h Hh) as (g & Hg). cbn. rewrite Hg. simpl.
    split; [tauto | discriminate].
Qed.

(** ** Evaluation is defined on the trees the constructor builds *)

Lemma evaluate_total f m :
  well_formed f = true → ∃ v, evaluate f m = Some v.
Proof.
  induction f as [r | r a IHa | r a IHa b IHb]; simpl; intros Hwf; bool_inv.
  - rewrite is_variable_not_constant, H by assumption. eauto.
  - rewrite H. eauto.
  - destruct (IHa H0) as (v & ->). cbn. eauto.
  - destruct (IHa H1) as (va & ->). destruct (IHb H0) as (vb & ->).
    root_cases; cbn; eauto.
Qed.

(** ** [to_not_and_or] on a tree that is already in its basis *)

Lemma to_not_and_or_fixed g :
  over [] not_and_or g = true → to_not_and_or g = Ok g.
Proof.
  induction g as [r | r a IHa | r a IHa b IHb]; intros Hov; over_inv Hov.
  - simpl. now rewrite Hov.
  - cbn. ground_chars. cbn. now rewrite (IHa Hov).
  - cbn. ground_chars. cbn. now rewrite (IHa Hfirst), (IHb Hsecond).
  - cbn. ground_chars. cbn. now rewrite (IHa Hfirst), (IHb Hsecond).
Qed.

(** ** Where the image of a node ends up *)

Lemma subformula_refl f : subformula f f.
Proof. destruct f; simpl; auto. Qed.

Lemma subformula_to_not_and_or f :
  well_formed f = true →
  ∀ g c, to_not_and_or f = Ok g → subformula c f →
         ∃ c', to_not_and_or c = Ok c' ∧ subformula c' g.
Proof.
  induction f as [r | r a IHa | r a IHa b IHb]; simpl well_formed;
    intros Hwf g c Hg Hc.
  - destruct Hc as [-> | []]. exists g. split; [assumption|].
    apply subformula_refl.
  - destruct Hc as [-> | Hc].
    { exists g. split; [assumption | apply subformula_refl]. }
    bool_inv.
    destruct (to_not_and_or_sound a H0) as (a' & Ha & _).
    cbn in Hg. ground_chars. rewrite Ha in Hg. cbn in Hg.
    injection Hg as <-.
    destruct (IHa H0 a' c Ha Hc) as (c' & Hc' & Hsub).
    exists c'. simpl. auto.
  - destruct Hc as [-> | Hc].
    { exists g. split; [assumption | apply subformula_refl]. }
    bool_inv.
    destruct (to_not_and_or_sound a H1) as (a' & Ha & _).
    destruct (to_not_and_or_sound b H0) as (b' & Hb & _).
    assert (Hsub : ∃ c', to_not_and_or c = Ok c'
                         ∧ (subformula c' a' ∨ subformula c' b')).
    { destruct Hc as [Hc | Hc];
        [ destruct (IHa H1 a' c Ha Hc) as (c' & ? & ?)
        | destruct (IHb H0 b' c Hb Hc) as (c' & ? & ?) ]; eauto. }
    destruct Hsub as (c' & Hc' & Hsub). exists c'. split; [assumption|].
    root_cases; cbn in Hg; rewrite Ha, Hb in Hg; cbn in Hg;
      injection Hg as <-; simpl; tauto.
Qed.

Lemma subformula_well_formed c f :
  well_formed f = true → subformula c f → well_formed c = true.
Proof.
  induction f as [r | r a IHa | r a IHa b IHb]; simpl; intros Hwf Hc.
  - destruct Hc as [-> | []]. assumption.
  - destruct Hc as [-> | Hc]; [assumption|].
    apply andb_prop in Hwf. destruct Hwf as [_ Ha]. auto.
  - destruct Hc as [-> | Hc]; [assumption|].
    apply andb_prop in Hwf. destruct Hwf as [Hwf Hb].
    apply andb_prop in Hwf. destruct Hwf as [_ Ha]. tauto.
Qed.

(** On a tree the constructor builds, a node with a constant root is the
    leaf [T] or the leaf [F]. *)
Lemma constant_node_leaf c :
  well_formed c = true → is_constant (root c) = true →
  c = Formula0 "T" ∨ c = Formula0 "F".
Proof.
  destruct c as [r | r a | r a b]; simpl; intros Hwf Hc.
  - destruct (is_constant_cases r Hc) as [-> | ->]; auto.
  - apply andb_prop in Hwf. destruct Hwf as [Hu _].
    apply is_unary_eq in Hu. subst r. discriminate Hc.
  - apply andb_prop in Hwf. destruct Hwf as [Hwf _].
    apply andb_prop in Hwf. destruct Hwf as [Hb _].
    destruct (is_constant_cases r Hc) as [-> | ->]; discriminate Hb.
Qed.

(** * The properties of the specification *)

(** C1. For every well-formed formula [f] and every assignment [m], each of
    the five conversions returns a formula, and that formula has the truth
    value of [f] under [m].  The returned formula may mention the variable
    [p] that [f] does not have, so the statement lets the returned formula be
    evaluated under any assignment [m'] that gives the variables of [f] the
    values [m] gives them; [m' = m] is one such assignment. *)
Theorem reductions_preserve_truth_value (f : Formula) (m m' : Model) :
  well_formed f = true →
  agree_on f m m' →
  ∃ v, evaluate f m = Some v
       ∧ (∃ g, to_not_and_or f = Ok g ∧ evaluate g m' = Some v)
       ∧ (∃ g, to_not_and f = Ok g ∧ evaluate g m' = Some v)
       ∧ (∃ g, to_nand f = Ok g ∧ evaluate g m' = Some v)
       ∧ (∃ g, to_implies_not f = Ok g ∧ evaluate g m' = Some v)
       ∧ (∃ g, to_implies_false f = Ok g ∧ evaluate g m' = Some v).
Proof.
  intros Hwf Hag. destruct (evaluate_total f m Hwf) as (v & Hv).
  exists v. split; [assumption|].
  rewrite (evaluate_agree f m m' Hag) in Hv.
  destruct (to_not_and_or_sound f Hwf) as (g1 & H1 & _ & E1).
  destruct (to_not_and_sound f Hwf) as (g2 & H2 & _ & E2).
  destruct (to_nand_sound f Hwf) as (g3 & H3 & _ & E3).
  destruct (to_implies_not_sound f Hwf) as (g4 & H4 & _ & E4).
  destruct (to_implies_false_sound f Hwf) as (g5 & H5 & _ & E5).
  repeat split; eexists; (split; [eassumption|]);
    rewrite ?E1, ?E2, ?E3, ?E4, ?E5; exact Hv.
Qed.

Lemma reductions_preserve_truth_value_witness :
  ∃ v, evaluate imp_p_q (assign true false) = Some v
       ∧ (∃ g, to_not_and_or imp_p_q = Ok g
               ∧ evaluate g (assign true false) = Some v)
       ∧ (∃ g, to_not_and imp_p_q = Ok g
               ∧ evaluate g (assign true false) = Some v)
       ∧ (∃ g, to_nand imp_p_q = Ok g
               ∧ evaluate g (assign true false) = Some v)
       ∧ (∃ g, to_implies_not imp_p_q = Ok g
               ∧ evaluate g (assign true false) = Some v)
       ∧ (∃ g, to_implies_false imp_p_q = Ok g
               ∧ evaluate g (assign true false) = Some v).
Proof.
  apply (reductions_preserve_truth_value imp_p_q
           (assign true false) (assign true false)).
  - reflexivity.
  - intros x _. reflexivity.
Defined.

(** C2. For every well-formed formula [f], what [to_not_and_or] returns has
    variable leaves and the operators [~], [&], [|] only; what [to_not_and]
    returns, [~] and [&] only; what [to_nand] returns, [-&] only, so no unary
    node; what [to_implies_not] returns, [->] and [~] only; what
    [to_implies_false] returns, [->] and the constant [F] only. *)
Theorem reductions_stay_in_basis (f : Formula) :
  well_formed f = true →
  (∃ g, to_not_and_or f = Ok g ∧ over [] not_and_or g = true
        ∧ count_roots is_constant g = 0)
  ∧ (∃ g, to_not_and f = Ok g ∧ over [] not_and g = true
          ∧ count_roots is_constant g = 0)
  ∧ (∃ g, to_nand f = Ok g ∧ over [] nand g = true
          ∧ count_roots is_constant g = 0 ∧ count_roots is_unary g = 0)
  ∧ (∃ g, to_implies_not f = Ok g ∧ over [] implies_not g = true
          ∧ count_roots is_constant g = 0)
  ∧ (∃ g, to_implies_false f = Ok g ∧ over ["F"] implies g = true).
Proof.
  intros Hwf.
  destruct (to_not_and_or_sound f Hwf) as (g1 & H1 & O1 & _).
  destruct (to_not_and_sound f Hwf) as (g2 & H2 & O2 & _).
  destruct (to_nand_sound f Hwf) as (g3 & H3 & O3 & _).
  destruct (to_implies_not_sound f Hwf) as (g4 & H4 & O4 & _).
  destruct (to_implies_false_sound f Hwf) as (g5 & H5 & O5 & _).
  assert (Hno : ∀ ops g, ¬ In "T" ops → ¬ In "F" ops →
                         over [] ops g = true →
                         count_roots is_constant g = 0)
    by exact over_no_constant.
  repeat split; eexists; (split; [eassumption|]);
    repeat split; try assumption;
    try (eapply Hno; [| |eassumption]; simpl; intuition discriminate).
  apply some_root_count. apply (over_some_root [] nand); [|assumption].
  intros r Hr. apply is_unary_eq in Hr. subst r.
  repeat split; simpl; intuition discriminate.
Qed.

Lemma reductions_stay_in_basis_witness :
  (∃ g, to_not_and_or imp_p_q = Ok g ∧ over [] not_and_or g = true
        ∧ count_roots is_constant g = 0)
  ∧ (∃ g, to_not_and imp_p_q = Ok g ∧ over [] not_and g = true
          ∧ count_roots is_constant g = 0)
  ∧ (∃ g, to_nand imp_p_q = Ok g ∧ over [] nand g = true
          ∧ count_roots is_constant g = 0 ∧ count_roots is_unary g = 0)
  ∧ (∃ g, to_implies_not imp_p_q = Ok g ∧ over [] implies_not g = true
          ∧ count_roots is_constant g = 0)
  ∧ (∃ g, to_implies_false imp_p_q = Ok g ∧ over ["F"] implies g = true).
Proof.
  apply (reductions_stay_in_basis imp_p_q). reflexivity.
Defined.

(** C3. At the input [(q&T)] the variable [q] occurs in the input and [p]
    does not, yet the constant [T] is rewritten with [p]: the witness is not
    taken from the variables of the original formula. *)
Theorem constant_variable_not_from_input :
  ("q" ∈ variables q_and_T)
  ∧ ("p" ∉ variables q_and_T)
  ∧ to_not_and_or q_and_T = Ok (Formula2 "&" var_q (constant_with "p" "T")).
Proof.
  split; [|split].
  - apply (bool_decide_unpack _). vm_compute. exact I.
  - apply (bool_decide_unpack _). vm_compute. exact I.
  - vm_compute. reflexivity.
Qed.

(** C4. On a tree whose nodes are as the constructor builds them or carry an
    unknown symbol, each stage raises if and only if some node carries a
    symbol the stage has no case for, and so does each of the five
    conversions with respect to the symbols of the input alphabet; the only
    exceptions are the failed assertion of [to_not_and_or] and the
    [ValueError] of the second stages; on a well-formed formula none of the
    five conversions raises, and each returns a tree the constructor
    accepts. *)
Theorem reductions_raise_iff_unhandled (f : Formula) :
  shaped f = true →
  ((raises (to_not_and_or f)
    ↔ some_root (unhandled handled_by_to_not_and_or) f = true)
   ∧ (raises (to_not_and_convert f)
      ↔ some_root (unhandled handled_by_convert) f = true)
   ∧ (raises (to_nand_convert f)
      ↔ some_root (unhandled handled_by_convert) f = true)
   ∧ (raises (to_implies_not_convert f)
      ↔ some_root (unhandled handled_by_convert) f = true)
   ∧ (raises (to_implies_false_convert f)
      ↔ some_root (unhandled handled_by_implies_false_convert) f = true))
  ∧ ((raises (to_not_and f)
      ↔ some_root (unhandled handled_by_to_not_and_or) f = true)
     ∧ (raises (to_nand f)
        ↔ some_root (unhandled handled_by_to_not_and_or) f = true)
     ∧ (raises (to_implies_not f)
        ↔ some_root (unhandled handled_by_to_not_and_or) f = true)
     ∧ (raises (to_implies_false f)
        ↔ some_root (unhandled handled_by_to_not_and_or) f = true))
  ∧ ((∀ e, to_not_and_or f = Raise e → e = AssertionError)
     ∧ (∀ e, to_not_and_convert f = Raise e ∨ to_nand_convert f = Raise e
             ∨ to_implies_not_convert f = Raise e
             ∨ to_implies_false_convert f = Raise e →
             ∃ s, e = ValueError ("Unexpected operator: " ++ s)))
  ∧ (well_formed f = true →
     (∃ g, to_not_and_or f = Ok g ∧ well_formed g = true)
     ∧ (∃ g, to_not_and f = Ok g ∧ well_formed g = true)
     ∧ (∃ g, to_nand f = Ok g ∧ well_formed g = true)
     ∧ (∃ g, to_implies_not f = Ok g ∧ well_formed g = true)
     ∧ (∃ g, to_implies_false f = Ok g ∧ well_formed g = true)).
Proof.
  intros Hs.
  pose proof (to_not_and_or_outcome f Hs) as O1.
  pose proof (to_not_and_convert_outcome f Hs) as O2.
  pose proof (to_nand_convert_outcome f Hs) as O3.
  pose proof (to_implies_not_convert_outcome f Hs) as O4.
  pose proof (to_implies_false_convert_outcome f Hs) as O5.
  assert (Hfirst : well_formed f = true →
                   ∃ h, to_not_and_or f = Ok h ∧ over [] not_and_or h = true).
  { intros Hwf. destruct (to_not_and_or_sound f Hwf) as (h & ? & ? & _).
    eauto. }
  split; [|split; [|split; [split|]]].
  - split; [|split; [|split; [|split]]]; eapply outcome_raises; eassumption.
  - split; [|split; [|split]].
    + apply (second_stage_raises _ _ (over [] not_and_or)); auto.
      intros h Hh. destruct (to_not_and_convert_sound h Hh) as (g & ? & _).
      eauto.
    + apply (second_stage_raises _ _ (over [] not_and_or)); auto.
      intros h Hh. destruct (to_nand_convert_sound h Hh) as (g & ? & _).
      eauto.
    + apply (second_stage_raises _ _ (over [] not_and_or)); auto.
      intros h Hh. destruct (to_implies_not_convert_sound h Hh) as (g & ? & _).
      eauto.
    + unfold to_implies_false, to_implies_not.
      destruct (some_root (unhandled handled_by_to_not_and_or) f) eqn:Hr.
      * unfold outcome in O1. rewrite Hr in O1.
        destruct O1 as (s & e & _ & _ & ->). simpl. tauto.
      * pose proof (shaped_handled_well_formed f Hs Hr) as Hwf.
        destruct (to_implies_false_sound f Hwf) as (g & Hg & _).
        unfold to_implies_false, to_implies_not in Hg. rewrite Hg. simpl.
        split; [tauto | discriminate].
  - intros e He. destruct (outcome_error _ _ _ _ _ O1 He) as (s & _ & Hs').
    exact Hs'.
  - intros e [He | [He | [He | He]]];
      [ destruct (outcome_error _ _ _ _ _ O2 He) as (s & _ & Hs')
      | destruct (outcome_error _ _ _ _ _ O3 He) as (s & _ & Hs')
      | destruct (outcome_error _ _ _ _ _ O4 He) as (s & _ & Hs')
      | destruct (outcome_error _ _ _ _ _ O5 He) as (s & _ & Hs') ];
      exists s; exact Hs'.
  - intros Hwf.
    destruct (to_not_and_or_sound f Hwf) as (g1 & H1 & W1 & _).
    destruct (to_not_and_sound f Hwf) as (g2 & H2 & W2 & _).
    destruct (to_nand_sound f Hwf) as (g3 & H3 & W3 & _).
    destruct (to_implies_not_sound f Hwf) as (g4 & H4 & W4 & _).
    destruct (to_implies_false_sound f Hwf) as (g5 & H5 & W5 & _).
    apply over_well_formed in W1, W2, W3, W4, W5. eauto 15.
Qed.

Lemma reductions_raise_iff_unhandled_witness :
  ((raises (to_not_and_or percent_p_q)
    ↔ some_root (unhandled handled_by_to_not_and_or) percent_p_q = true)
   ∧ (raises (to_not_and_convert percent_p_q)
      ↔ some_root (unhandled handled_by_convert) percent_p_q = true)
   ∧ (raises (to_nand_convert percent_p_q)
      ↔ some_root (unhandled handled_by_convert) percent_p_q = true)
   ∧ (raises (to_implies_not_convert percent_p_q)
      ↔ some_root (unhandled handled_by_convert) percent_p_q = true)
   ∧ (raises (to_implies_false_convert percent_p_q)
      ↔ some_root (unhandled handled_by_implies_false_convert) percent_p_q
        = true))
  ∧ ((raises (to_not_and percent_p_q)
      ↔ some_root (unhandled handled_by_to_not_and_or) percent_p_q = true)
     ∧ (raises (to_nand percent_p_q)
        ↔ some_root (unhandled handled_by_to_not_and_or) percent_p_q = true)
     ∧ (raises (to_implies_not percent_p_q)
        ↔ some_root (unhandled handled_by_to_not_and_or) percent_p_q = true)
     ∧ (raises (to_implies_false percent_p_q)
        ↔ some_root (unhandled handled_by_to_not_and_or) percent_p_q = true))
  ∧ ((∀ e, to_not_and_or percent_p_q = Raise e → e = AssertionError)
     ∧ (∀ e, to_not_and_convert percent_p_q = Raise e
             ∨ to_nand_convert percent_p_q = Raise e
             ∨ to_implies_not_convert percent_p_q = Raise e
             ∨ to_implies_false_convert percent_p_q = Raise e →
             ∃ s, e = ValueError ("Unexpected operator: " ++ s)))
  ∧ (well_formed percent_p_q = true →
     (∃ g, to_not_and_or percent_p_q = Ok g ∧ well_formed g = true)
     ∧ (∃ g, to_not_and percent_p_q = Ok g ∧ well_formed g = true)
     ∧ (∃ g, to_nand percent_p_q = Ok g ∧ well_formed g = true)
     ∧ (∃ g, to_implies_not percent_p_q = Ok g ∧ well_formed g = true)
     ∧ (∃ g, to_implies_false percent_p_q = Ok g ∧ well_formed g = true)).
Proof.
  apply (reductions_raise_iff_unhandled percent_p_q). reflexivity.
Defined.

(** C5. [to_not_and_or] applied to the formula [T] returns a tree without
    constant nodes that is true under every assignment; applied to the
    formula [F], a tree without constant nodes that is false under every
    assignment. *)
Theorem to_not_and_or_eliminates_constants :
  (∃ g, to_not_and_or (Formula0 "T") = Ok g
        ∧ count_roots is_constant g = 0 ∧ tautology g)
  ∧ (∃ g, to_not_and_or (Formula0 "F") = Ok g
          ∧ count_roots is_constant g = 0 ∧ contradiction g).
Proof.
  split.
  - exists p_or_not_p. split; [vm_compute; reflexivity|].
    split; [reflexivity|]. intros m. cbn. destruct (m "p"); reflexivity.
  - exists p_and_not_p. split; [vm_compute; reflexivity|].
    split; [reflexivity|]. intros m. cbn. destruct (m "p"); reflexivity.
Qed.

(** C6. For every well-formed formula [f], applying [to_not_and_or] to what
    [to_not_and_or f] returns gives a tree that is still over [~], [&], [|]
    and has the truth value of [to_not_and_or f] under every assignment; it
    is in fact the same tree. *)
Theorem to_not_and_or_idempotent (f : Formula) :
  well_formed f = true →
  ∃ g g', to_not_and_or f = Ok g
          ∧ to_not_and_or g = Ok g'
          ∧ over [] not_and_or g' = true
          ∧ (∀ m, evaluate g' m = evaluate g m)
          ∧ g' = g.
Proof.
  intros Hwf. destruct (to_not_and_or_sound f Hwf) as (g & Hg & Hov & _).
  exists g, g. rewrite (to_not_and_or_fixed g Hov). auto.
Qed.

Lemma to_not_and_or_idempotent_witness :
  ∃ g g', to_not_and_or imp_p_q = Ok g
          ∧ to_not_and_or g = Ok g'
          ∧ over [] not_and_or g' = true
          ∧ (∀ m, evaluate g' m = evaluate g m)
          ∧ g' = g.
Proof.
  apply (to_not_and_or_idempotent imp_p_q). reflexivity.
Defined.

(** C7. [to_not_and_or] applied to [(p->q)] returns exactly the tree
    [(~p|q)], and under every assignment both have the truth value of
    "p implies q"; the four assignments to [p] and [q] are spelled out. *)
Theorem to_not_and_or_implies :
  to_not_and_or imp_p_q = Ok (Formula2 "|" (Formula1 "~" var_p) var_q)
  ∧ (∀ m, evaluate (Formula2 "|" (Formula1 "~" var_p) var_q) m
          = Some (implb (m "p") (m "q"))
          ∧ evaluate imp_p_q m = Some (implb (m "p") (m "q")))
  ∧ (∀ vp vq,
        evaluate (Formula2 "|" (Formula1 "~" var_p) var_q) (assign vp vq)
        = evaluate imp_p_q (assign vp vq)).
Proof.
  split; [vm_compute; reflexivity|]. split.
  - intros m. cbn. destruct (m "p"), (m "q"); split; reflexivity.
  - intros [] []; reflexivity.
Qed.

(** C8. The formula [T] has no variable; [to_not_and_or] applied to it does
    not raise: it returns [(p|~p)], whose only variable is the default name
    [p] and which is true under every assignment. *)
Theorem to_not_and_or_bare_T :
  variables (Formula0 "T") = ∅
  ∧ to_not_and_or (Formula0 "T") = Ok p_or_not_p
  ∧ variables p_or_not_p = {["p"]}
  ∧ tautology p_or_not_p.
Proof.
  split; [reflexivity|]. split; [vm_compute; reflexivity|]. split.
  - cbn. apply union_idemp_L.
  - intros m. cbn. destruct (m "p"); reflexivity.
Qed.

(** C9. For every well-formed input [f] and every node [c] of [f] that
    carries a constant, whatever variables occur elsewhere in [f]: the
    variable set the lookup inspects, that of [c], is empty, the node is
    rewritten to the formula built with the fixed name [p], that formula is
    part of what [to_not_and_or f] returns, and its only variable is [p]. *)
Theorem constants_replaced_over_p (f g c : Formula) :
  well_formed f = true →
  to_not_and_or f = Ok g →
  subformula c f →
  is_constant (root c) = true →
  variables c = ∅
  ∧ to_not_and_or c = Ok (constant_with "p" (root c))
  ∧ subformula (constant_with "p" (root c)) g
  ∧ variables (constant_with "p" (root c)) = {["p"]}.
Proof.
  intros Hwf Hg Hsub Hc.
  destruct (subformula_to_not_and_or f Hwf g c Hg Hsub) as (c' & Hc' & Hin).
  pose proof (subformula_well_formed c f Hwf Hsub) as Hwc.
  destruct (constant_node_leaf c Hwc Hc) as [-> | ->]; cbn [root] in *;
    vm_compute in Hc'; injection Hc' as <-;
    (split; [reflexivity|]); (split; [vm_compute; reflexivity|]);
    (split; [exact Hin|]); cbn; apply union_idemp_L.
Qed.

Lemma constants_replaced_over_p_witness :
  variables (Formula0 "T") = ∅
  ∧ to_not_and_or (Formula0 "T") = Ok (constant_with "p" "T")
  ∧ subformula (constant_with "p" "T")
      (Formula2 "&" var_q (constant_with "p" "T"))
  ∧ variables (constant_with "p" "T") = {["p"]}.
Proof.
  apply (constants_replaced_over_p q_and_T
           (Formula2 "&" var_q (constant_with "p" "T")) (Formula0 "T")).
  - reflexivity.
  - vm_compute. reflexivity.
  - simpl. auto.
  - reflexivity.
Defined.

(** C10, as stated, fails: [to_implies_false] applied to [~p] returns
    [(p->F)], which has a constant node. *)
Lemma to_implies_false_keeps_F :
  well_formed not_p = true
  ∧ to_implies_false not_p = Ok (Formula2 "->" var_p (Formula0 "F"))
  ∧ count_roots is_constant (Formula2 "->" var_p (Formula0 "F")) = 1
  ∧ ¬ (∀ f g, well_formed f = true → to_implies_false f = Ok g →
              count_roots is_constant g = 0).
Proof.
  assert (Hrun : to_implies_false not_p
                 = Ok (Formula2 "->" var_p (Formula0 "F")))
    by (vm_compute; reflexivity).
  repeat split; try assumption.
  intros Hall. specialize (Hall not_p _ eq_refl Hrun). discriminate Hall.
Qed.

(** C10, amended. For every well-formed formula [f], what [to_implies_not f]
    returns has no constant node, so the cases of the rewrite for the
    constants [F] and [T] are never reached; what [to_implies_false f]
    returns has only [->], variables and the constant [F], never [T], and has
    exactly one [F] node for each [~] node of [to_implies_not f], the one the
    rewrite of that negation introduces. *)
Theorem to_implies_false_constants (f : Formula) :
  well_formed f = true →
  ∃ h g, to_implies_not f = Ok h
         ∧ count_roots is_constant h = 0
         ∧ to_implies_false f = Ok g
         ∧ over ["F"] implies g = true
         ∧ count_roots (String.eqb "T") g = 0
         ∧ count_roots is_constant g = count_roots is_unary h.
Proof.
  intros Hwf.
  destruct (to_implies_not_sound f Hwf) as (h & Hh & Hoh & _).
  destruct (to_implies_false_convert_sound h Hoh) as (g & Hg & Hog & _ & Hc).
  exists h, g. split; [assumption|]. split.
  { apply (over_no_constant implies_not); [| |assumption];
      simpl; intuition discriminate. }
  split. { unfold to_implies_false. rewrite Hh. exact Hg. }
  split; [assumption|]. split; [|assumption].
  apply some_root_count. apply (over_some_root ["F"] implies); [|assumption].
  intros r Hr. apply String.eqb_eq in Hr. subst r.
  repeat split; simpl; intuition discriminate.
Qed.

Lemma to_implies_false_constants_witness :
  ∃ h g, to_implies_not not_p = Ok h
         ∧ count_roots is_constant h = 0
         ∧ to_implies_false not_p = Ok g
         ∧ over ["F"] implies g = true
         ∧ count_roots (String.eqb "T") g = 0
         ∧ count_roots is_constant g = count_roots is_unary h.
Proof.
  apply (to_implies_false_constants not_p). reflexivity.
Defined.

(** * Further properties of the conversions *)

#[local] Set Warnings "-clear-no-such-hyp".

(** ** The variables of what is returned *)

Lemma to_not_and_or_variables f :
  well_formed f = true →
  ∃ g, to_not_and_or f = Ok g
       ∧ variables g = variables f ∪ witness_variable f.
Proof.
  unfold witness_variable.
  induction f as [r | r a IHa | r a IHa b IHb]; simpl well_formed;
    intros Hwf; bool_inv.
  - exists (Formula0 r). simpl. rewrite H.
    rewrite is_variable_not_constant by assumption. simpl.
    split; [reflexivity | set_solver].
  - root_cases; eexists; (split; [vm_compute; reflexivity|]); cbn;
      set_solver.
  - destruct (IHa H0) as (a' & Ha & Hva).
    eexists. cbn. rewrite Ha. cbn. split; [reflexivity|]. exact Hva.
  - destruct (IHa H1) as (a' & Ha & Hva).
    destruct (IHb H0) as (b' & Hb & Hvb).
    root_cases; eexists; cbn; rewrite Ha, Hb; cbn;
      (split; [reflexivity|]); cbn; rewrite Hva, Hvb;
      destruct (some_root is_constant a), (some_root is_constant b);
      set_solver.
Qed.

Ltac keeps_variables IHa IHb :=
  repeat match goal with
    | IH : ?P → ∃ g, _ = Ok g ∧ _, H : ?P |- _ =>
        let g := fresh "g" in
        let Hg := fresh "Hg" in
        let Hv := fresh "Hv" in
        destruct (IH H) as (g & Hg & Hv); clear IH;
        cbn; rewrite Hg; cbn
    end;
  eexists; cbn; (split; [reflexivity|]); cbn; set_solver.

Lemma to_not_and_convert_variables f :
  over [] not_and_or f = true →
  ∃ g, to_not_and_convert f = Ok g ∧ variables g = variables f.
Proof.
  induction f as [r | r a IHa | r a IHa b IHb]; intros Hov; over_inv Hov;
    try (keeps_variables IHa IHb; fail).
  exists (Formula0 r). simpl. rewrite Hov. auto.
Qed.

Lemma to_nand_convert_variables f :
  over [] not_and_or f = true →
  ∃ g, to_nand_convert f = Ok g ∧ variables g = variables f.
Proof.
  induction f as [r | r a IHa | r a IHa b IHb]; intros Hov; over_inv Hov;
    try (keeps_variables IHa IHb; fail).
  exists (Formula0 r). simpl. rewrite Hov. auto.
Qed.

Lemma to_implies_not_convert_variables f :
  over [] not_and_or f = true →
  ∃ g, to_implies_not_convert f = Ok g ∧ variables g = variables f.
Proof.
  induction f as [r | r a IHa | r a IHa b IHb]; intros Hov; over_inv Hov;
    try (keeps_variables IHa IHb; fail).
  exists (Formula0 r). simpl. rewrite Hov. auto.
Qed.

Lemma to_implies_false_convert_variables f :
  over [] implies_not f = true →
  ∃ g, to_implies_false_convert f = Ok g ∧ variables g = variables f.
Proof.
  induction f as [r | r a IHa | r a IHa b IHb]; intros Hov; over_inv Hov;
    try (keeps_variables IHa IHb; fail).
  exists (Formula0 r). simpl. rewrite Hov. auto.
Qed.

(** X1. For every well-formed formula, each of the five conversions returns
    a formula whose variables are those of the input, together with [p] when
    the input has a constant node and with nothing else when it has none. *)
Theorem reductions_variables (f : Formula) :
  well_formed f = true →
  (∃ g, to_not_and_or f = Ok g
        ∧ variables g = variables f ∪ witness_variable f)
  ∧ (∃ g, to_not_and f = Ok g
          ∧ variables g = variables f ∪ witness_variable f)
  ∧ (∃ g, to_nand f = Ok g
          ∧ variables g = variables f ∪ witness_variable f)
  ∧ (∃ g, to_implies_not f = Ok g
          ∧ variables g = variables f ∪ witness_variable f)
  ∧ (∃ g, to_implies_false f = Ok g
          ∧ variables g = variables f ∪ witness_variable f).
Proof.
  intros Hwf.
  destruct (to_not_and_or_variables f Hwf) as (h & Hh & Hvh).
  destruct (to_not_and_or_sound f Hwf) as (h' & Hh' & Hoh & _).
  rewrite Hh in Hh'. injection Hh' as <-.
  destruct (to_not_and_convert_variables h Hoh) as (g2 & H2 & V2).
  destruct (to_nand_convert_variables h Hoh) as (g3 & H3 & V3).
  destruct (to_implies_not_convert_variables h Hoh) as (g4 & H4 & V4).
  destruct (to_implies_not_convert_sound h Hoh) as (g4' & H4' & O4 & _).
  rewrite H4 in H4'. injection H4' as <-.
  destruct (to_implies_false_convert_variables g4 O4) as (g5 & H5 & V5).
  unfold to_not_and, to_nand, to_implies_false, to_implies_not.
  rewrite Hh. cbn. rewrite H4. cbn.
  split; [|split; [|split; [|split]]]; eexists;
    (split; [first [reflexivity | eassumption]|]); congruence.
Qed.

Lemma reductions_variables_witness :
  (∃ g, to_not_and_or q_and_T = Ok g
        ∧ variables g = variables q_and_T ∪ witness_variable q_and_T)
  ∧ (∃ g, to_not_and q_and_T = Ok g
          ∧ variables g = variables q_and_T ∪ witness_variable q_and_T)
  ∧ (∃ g, to_nand q_and_T = Ok g
          ∧ variables g = variables q_and_T ∪ witness_variable q_and_T)
  ∧ (∃ g, to_implies_not q_and_T = Ok g
          ∧ variables g = variables q_and_T ∪ witness_variable q_and_T)
  ∧ (∃ g, to_implies_false q_and_T = Ok g
          ∧ variables g = variables q_and_T ∪ witness_variable q_and_T).
Proof.
  apply (reductions_variables q_and_T). reflexivity.
Defined.

(** ** The exceptions of the conversions that run a second stage *)

Lemma second_stage_exception (first second : Formula → result Formula) pre f e :
  (∀ h, pre h = true → ∃ g, second h = Ok g) →
  (well_formed f = true → ∃ h, first f = Ok h ∧ pre h = true) →
  outcome handled_by_to_not_and_or first failed_assertion f →
  shaped f = true →
  first f ≫= second = Raise e → e = AssertionError.
Proof.
  intros Hsecond Hfirst Hout Hs. unfold outcome in Hout.
  destruct (some_root (unhandled handled_by_to_not_and_or) f) eqn:Hr.
  - destruct Hout as (s & e' & _ & He & ->). cbn. intros [= <-]. exact He.
  - destruct (Hfirst (shaped_handled_well_formed f Hs Hr)) as (h & -> & Hh).
    destruct (Hsecond h Hh) as (g & Hg). cbn. rewrite Hg. discriminate.
Qed.

(** X2. On a tree whose nodes are as the constructor builds them or carry
    an unknown symbol, the four conversions that run a second stage raise
    nothing but the failed assertion of [to_not_and_or]: the [ValueError] of
    their inner functions is never raised through them. *)
Theorem second_stage_never_raises_ValueError (f : Formula) (e : exn) :
  shaped f = true →
  to_not_and f = Raise e ∨ to_nand f = Raise e
  ∨ to_implies_not f = Raise e ∨ to_implies_false f = Raise e →
  e = AssertionError.
Proof.
  intros Hs.
  pose proof (to_not_and_or_outcome f Hs) as O1.
  assert (Hfirst : well_formed f = true →
                   ∃ h, to_not_and_or f = Ok h ∧ over [] not_and_or h = true).
  { intros Hwf. destruct (to_not_and_or_sound f Hwf) as (h & ? & ? & _).
    eauto. }
  intros [He | [He | [He | He]]].
  - apply (second_stage_exception to_not_and_or to_not_and_convert
             (over [] not_and_or) f); auto.
    intros h Hh. destruct (to_not_and_convert_sound h Hh) as (g & ? & _).
    eauto.
  - apply (second_stage_exception to_not_and_or to_nand_convert
             (over [] not_and_or) f); auto.
    intros h Hh. destruct (to_nand_convert_sound h Hh) as (g & ? & _).
    eauto.
  - apply (second_stage_exception to_not_and_or to_implies_not_convert
             (over [] not_and_or) f); auto.
    intros h Hh. destruct (to_implies_not_convert_sound h Hh) as (g & ? & _).
    eauto.
  - unfold to_implies_false, to_implies_not in He.
    destruct (some_root (unhandled handled_by_to_not_and_or) f) eqn:Hr.
    + unfold outcome in O1. rewrite Hr in O1.
      destruct O1 as (s & e' & _ & He' & Hf). rewrite Hf in He. cbn in He.
      injection He as <-. exact He'.
    + pose proof (shaped_handled_well_formed f Hs Hr) as Hwf.
      destruct (to_implies_false_sound f Hwf) as (g & Hg & _).
      unfold to_implies_false, to_implies_not in Hg. rewrite Hg in He.
      discriminate He.
Qed.

Lemma second_stage_never_raises_ValueError_witness :
  AssertionError = AssertionError.
Proof.
  apply (second_stage_never_raises_ValueError percent_p_q AssertionError).
  - reflexivity.
  - left. vm_compute. reflexivity.
Defined.

(** ** Which symbol the exception of a second stage names *)

Ltac stops_children :=
  repeat match goal with
    | IH : ?P → stops_at_first _ _ _, H : ?P |- _ =>
        specialize (IH H); unfold stops_at_first in IH
    end;
  cbn; ground_chars; cbn;
  repeat match goal with
    | IH : match first_unhandled ?h ?a with _ => _ end |- _ =>
        destruct (first_unhandled h a);
        [ rewrite IH; reflexivity | destruct IH as (? & ->); cbn ]
    end;
  eauto.

Ltac stage_stops handled unhandled_lemma :=
  let f := fresh "f" in
  let Hs := fresh "Hs" in
  intros f;
  induction f as [r | r a IHa | r a IHa b IHb]; intros Hs;
    unfold stops_at_first; cbn [first_unhandled root];
    destruct (handled r) eqn:?;
    try (apply unhandled_lemma; assumption);
    cbn [shaped] in Hs; bool_inv; root_cases;
    try match goal with
      | Hh : handled _ = true |- _ => vm_compute in Hh; discriminate
      end;
    try match goal with
      | Hu : unknown_symbol _ = true |- _ =>
          apply unknown_symbol_unhandled in Hu; destruct Hu as (? & ? & ?);
          congruence
      end;
    try (stops_children; fail);
    match goal with
    | Hv : is_variable ?r = true |- _ =>
        eexists; simpl; rewrite Hv; reflexivity
    end.

Lemma to_not_and_convert_stops :
  ∀ f, shaped f = true →
       stops_at_first handled_by_convert to_not_and_convert f.
Proof. stage_stops handled_by_convert to_not_and_convert_unhandled. Qed.

Lemma to_nand_convert_stops :
  ∀ f, shaped f = true →
       stops_at_first handled_by_convert to_nand_convert f.
Proof. stage_stops handled_by_convert to_nand_convert_unhandled. Qed.

Lemma to_implies_not_convert_stops :
  ∀ f, shaped f = true →
       stops_at_first handled_by_convert to_implies_not_convert f.
Proof. stage_stops handled_by_convert to_implies_not_convert_unhandled. Qed.

Lemma to_implies_false_convert_stops :
  ∀ f, shaped f = true →
       stops_at_first handled_by_implies_false_convert
         to_implies_false_convert f.
Proof.
  stage_stops handled_by_implies_false_convert
    to_implies_false_convert_unhandled.
Qed.

(** X3. Each inner function [convert], applied to a tree whose nodes are as
    the constructor builds them or carry an unknown symbol, stops at the
    first node it has no case for, a node before its children and the first
    child before the second: it raises the [ValueError] whose message ends
    in the symbol of that node; when there is no such node it returns a
    formula. *)
Theorem convert_stops_at_first_unhandled (f : Formula) :
  shaped f = true →
  stops_at_first handled_by_convert to_not_and_convert f
  ∧ stops_at_first handled_by_convert to_nand_convert f
  ∧ stops_at_first handled_by_convert to_implies_not_convert f
  ∧ stops_at_first handled_by_implies_false_convert
      to_implies_false_convert f.
Proof.
  intros Hs. split; [|split; [|split]].
  - now apply to_not_and_convert_stops.
  - now apply to_nand_convert_stops.
  - now apply to_implies_not_convert_stops.
  - now apply to_implies_false_convert_stops.
Qed.

Lemma convert_stops_at_first_unhandled_witness :
  stops_at_first handled_by_convert to_not_and_convert T_implies_not_p
  ∧ stops_at_first handled_by_convert to_nand_convert T_implies_not_p
  ∧ stops_at_first handled_by_convert to_implies_not_convert T_implies_not_p
  ∧ stops_at_first handled_by_implies_false_convert
      to_implies_false_convert T_implies_not_p.
Proof.
  apply (convert_stops_at_first_unhandled T_implies_not_p). reflexivity.
Defined.

(** ** The cases of [to_implies_false] for the constants *)

(** X4. The inner function of [to_implies_false], applied to any tree over
    variables, the constants [T] and [F] and the operators [->] and [~],
    returns a formula over [->] and [F] only, with the truth value of its
    argument under every assignment: the cases for the constants, which
    [to_implies_false] itself never reaches, are right as well. *)
Theorem to_implies_false_convert_constants (f : Formula) :
  over ["T"; "F"] implies_not f = true →
  ∃ g, to_implies_false_convert f = Ok g
       ∧ over ["F"] implies g = true
       ∧ ∀ m, evaluate g m = evaluate f m.
Proof.
  induction f as [r | r a IHa | r a IHa b IHb]; intros Hov.
  - simpl in Hov. apply orb_prop in Hov. destruct Hov as [Hv | Hc].
    + exists (Formula0 r). simpl. rewrite Hv. auto.
    + apply andb_prop in Hc. destruct Hc as [Hc _].
      destruct (is_constant_cases r Hc) as [-> | ->]; eexists;
        (split; [vm_compute; reflexivity|]); split; reflexivity.
  - over_inv Hov. unary_sound IHa Hov a.
  - over_inv Hov. binary_sound IHa Hfirst a IHb Hsecond b.
Qed.

Lemma to_implies_false_convert_constants_witness :
  ∃ g, to_implies_false_convert T_implies_not_p = Ok g
       ∧ over ["F"] implies g = true
       ∧ ∀ m, evaluate g m = evaluate T_implies_not_p m.
Proof.
  apply (to_implies_false_convert_constants T_implies_not_p). reflexivity.
Defined.

(** ** Conversions applied to what a conversion returned *)

Lemma over_mono consts ops ops' f :
  (∀ s, In s ops → In s ops') →
  over consts ops f = true → over consts ops' f = true.
Proof.
  intros Hsub.
  assert (Hmem : ∀ r, existsb (String.eqb r) ops = true →
                      existsb (String.eqb r) ops' = true).
  { intros r H. apply existsb_exists in H. destruct H as (x & Hin & Heq).
    apply existsb_exists. exists x. auto. }
  induction f as [r | r a IHa | r a IHa b IHb]; simpl; intros H.
  - assumption.
  - apply andb_prop in H. destruct H as [H Ha]. apply andb_prop in H.
    destruct H as [Hu Hr]. now rewrite Hu, (Hmem r Hr), IHa.
  - apply andb_prop in H. destruct H as [H Hb]. apply andb_prop in H.
    destruct H as [H Ha]. apply andb_prop in H. destruct H as [Hbin Hr].
    now rewrite Hbin, (Hmem r Hr), IHa, IHb.
Qed.

Lemma to_not_and_convert_fixed g :
  over [] not_and g = true → to_not_and_convert g = Ok g.
Proof.
  induction g as [r | r a IHa | r a IHa b IHb]; intros Hov; over_inv Hov.
  - simpl. now rewrite Hov.
  - cbn. ground_chars. cbn. now rewrite (IHa Hov).
  - cbn. ground_chars. cbn. now rewrite (IHa Hfirst), (IHb Hsecond).
Qed.

(** X5. For every well-formed formula [f], with [h] what [to_not_and_or f]
    returns: each of the other four conversions returns on [h] what it
    returns on [f], and [to_not_and] and [to_not_and_or] both return what
    [to_not_and f] returns unchanged. *)
Theorem conversions_absorb_to_not_and_or (f : Formula) :
  well_formed f = true →
  ∃ h g, to_not_and_or f = Ok h
         ∧ to_not_and h = to_not_and f
         ∧ to_nand h = to_nand f
         ∧ to_implies_not h = to_implies_not f
         ∧ to_implies_false h = to_implies_false f
         ∧ to_not_and f = Ok g
         ∧ to_not_and g = Ok g
         ∧ to_not_and_or g = Ok g.
Proof.
  intros Hwf.
  destruct (to_not_and_or_sound f Hwf) as (h & Hh & Hoh & _).
  destruct (to_not_and_convert_sound h Hoh) as (g & Hg & Hog & _).
  pose proof (to_not_and_or_fixed h Hoh) as Hfix.
  assert (Hog' : over [] not_and_or g = true).
  { apply (over_mono [] not_and); [|assumption].
    unfold not_and, not_and_or. simpl. tauto. }
  exists h, g.
  unfold to_not_and, to_nand, to_implies_false, to_implies_not.
  rewrite Hh, Hfix, (to_not_and_or_fixed g Hog'). cbn.
  rewrite Hg, (to_not_and_convert_fixed g Hog). auto 10.
Qed.

Lemma conversions_absorb_to_not_and_or_witness :
  ∃ h g, to_not_and_or imp_p_q = Ok h
         ∧ to_not_and h = to_not_and imp_p_q
         ∧ to_nand h = to_nand imp_p_q
         ∧ to_implies_not h = to_implies_not imp_p_q
         ∧ to_implies_false h = to_implies_false imp_p_q
         ∧ to_not_and imp_p_q = Ok g
         ∧ to_not_and g = Ok g
         ∧ to_not_and_or g = Ok g.
Proof.
  apply (conversions_absorb_to_not_and_or imp_p_q). reflexivity.
Defined.

(** ** How deep the returned tree is *)

(** X6. For every well-formed formula, the tree [to_not_and_or] returns is
    at least as high as the input and at most three times as high. *)
Theorem to_not_and_or_height (f : Formula) :
  well_formed f = true →
  ∃ g, to_not_and_or f = Ok g
       ∧ (height f ≤ height g)%nat ∧ (height g ≤ 3 * height f)%nat.
Proof.
  induction f as [r | r a IHa | r a IHa b IHb]; simpl well_formed;
    intros Hwf; bool_inv.
  - exists (Formula0 r). simpl. rewrite H. simpl. split; [reflexivity | lia].
  - root_cases; eexists; (split; [vm_compute; reflexivity|]); cbn; lia.
  - destruct (IHa H0) as (a' & Ha & Hla & Hua).
    eexists. cbn. rewrite Ha. cbn. split; [reflexivity|]. cbn. lia.
  - destruct (IHa H1) as (a' & Ha & Hla & Hua).
    destruct (IHb H0) as (b' & Hb & Hlb & Hub).
    root_cases; eexists; cbn; rewrite Ha, Hb; cbn;
      (split; [reflexivity|]); cbn; lia.
Qed.

Lemma to_not_and_or_height_witness :
  ∃ g, to_not_and_or imp_p_q = Ok g
       ∧ (height imp_p_q ≤ height g)%nat
       ∧ (height g ≤ 3 * height imp_p_q)%nat.
Proof.
  apply (to_not_and_or_height imp_p_q). reflexivity.
Defined.

(** ** Where [to_implies_false] puts the constant *)

Lemma to_implies_false_convert_F_right h :
  over [] implies_not h = true →
  ∃ g, to_implies_false_convert h = Ok g ∧ F_only_right g = true.
Proof.
  induction h as [r | r a IHa | r a IHa b IHb]; intros Hov; over_inv Hov.
  - exists (Formula0 r). simpl. rewrite Hov.
    rewrite is_variable_not_constant by assumption. auto.
  - destruct (IHa Hov) as (a' & Ha & Hra).
    eexists. cbn. rewrite Ha. cbn. split; [reflexivity|].
    cbn. now rewrite Hra.
  - destruct (IHa Hfirst) as (a' & Ha & Hra).
    destruct (IHb Hsecond) as (b' & Hb & Hrb).
    eexists. cbn. rewrite Ha, Hb. cbn. split; [reflexivity|].
    cbn. rewrite Hra, Hrb. apply orb_true_r.
Qed.

(** X7. For every well-formed formula, in the tree [to_implies_false]
    returns the constant [F] occurs only as the second operand of a [->]
    node: the tree is never a bare constant and no first operand is one. *)
Theorem to_implies_false_F_only_right (f : Formula) :
  well_formed f = true →
  ∃ g, to_implies_false f = Ok g ∧ F_only_right g = true.
Proof.
  intros Hwf.
  destruct (to_implies_not_sound f Hwf) as (h & Hh & Hoh & _).
  destruct (to_implies_false_convert_F_right h Hoh) as (g & Hg & Hr).
  exists g. unfold to_implies_false. rewrite Hh. auto.
Qed.

Lemma to_implies_false_F_only_right_witness :
  ∃ g, to_implies_false not_p = Ok g ∧ F_only_right g = true.
Proof.
  apply (to_implies_false_F_only_right not_p). reflexivity.
Defined.

(** ** The formulas a conversion returns unchanged *)

(** X8. A well-formed formula is returned unchanged by [to_not_and_or]
    exactly when it is already over [~], [&], [|] without constants, and by
    [to_not_and] exactly when it is already over [~] and [&] without
    constants. *)
Theorem unchanged_iff_in_basis (f : Formula) :
  well_formed f = true →
  (to_not_and_or f = Ok f ↔ over [] not_and_or f = true)
  ∧ (to_not_and f = Ok f ↔ over [] not_and f = true).
Proof.
  intros Hwf. split; split.
  - intros Hf. destruct (to_not_and_or_sound f Hwf) as (g & Hg & Hog & _).
    congruence.
  - apply to_not_and_or_fixed.
  - intros Hf. destruct (to_not_and_sound f Hwf) as (g & Hg & Hog & _).
    congruence.
  - intros Hov. unfold to_not_and.
    rewrite to_not_and_or_fixed.
    + cbn. now apply to_not_and_convert_fixed.
    + apply (over_mono [] not_and); [|assumption].
      unfold not_and, not_and_or. simpl. tauto.
Qed.

Lemma unchanged_iff_in_basis_witness :
  (to_not_and_or imp_p_q = Ok imp_p_q ↔ over [] not_and_or imp_p_q = true)
  ∧ (to_not_and imp_p_q = Ok imp_p_q ↔ over [] not_and imp_p_q = true).
Proof.
  apply (unchanged_iff_in_basis imp_p_q). reflexivity.
Defined.
